(** * seastar::internal::io_request

    A shallow embedding of [include/seastar/core/internal/io_request.hh].

    The class packs every kind of asynchronous operation into one value:
    an operation tag, a descriptor and three anonymous unions ([_attr],
    [_ptr], [_size]).  The unions are what makes the class interesting:
    members of different width share the same bytes, and several
    constructors assign only some of them.  The embedding therefore keeps
    each union as its object representation, a list of bytes, and models
    a member access as a load or store of the member's bytes.  Bytes that
    no constructor assigns are indeterminate: the embedding takes them as
    a parameter that ranges over every byte pattern, and a property of a
    request is one that holds for all of them.

    Data layout is that of the LP64 little-endian Linux targets the
    reactor is built for (x86-64, aarch64): [int] and [socklen_t] are
    4 bytes, [uint64_t], [size_t] and every object pointer are 8 bytes,
    all members of a union start at offset 0, and reading a member other
    than the one last written reinterprets the stored bytes (the
    behaviour GCC and Clang document for unions). *)

From Stdlib Require Import ZArith Lia List Bool.
From coqutil Require Import Byte Word.LittleEndianList.
Import ListNotations.
Local Open Scope Z_scope.

(** ** Scalar types of the C++ source *)

Inductive ctype : Set :=
| c_int        (* int: fd, flags, events *)
| c_uint64     (* uint64_t: pos *)
| c_size_t     (* size_t: len *)
| c_socklen_t  (* socklen_t: unsigned 32-bit *)
| c_ptr.       (* char*, iovec*, msghdr*, sockaddr*, socklen_t*, void* *)

Definition sizeof (t : ctype) : nat :=
  match t with
  | c_int | c_socklen_t => 4%nat
  | c_uint64 | c_size_t | c_ptr => 8%nat
  end.

Definition is_signed (t : ctype) : bool :=
  match t with
  | c_int => true
  | _ => false
  end.

Definition bits (t : ctype) : Z := 8 * Z.of_nat (sizeof t).

Definition min_value (t : ctype) : Z :=
  if is_signed t then - 2 ^ (bits t - 1) else 0.

Definition max_value (t : ctype) : Z :=
  if is_signed t then 2 ^ (bits t - 1) - 1 else 2 ^ bits t - 1.

(** [fits t v]: the integer [v] is a value of type [t]. *)
Definition fits (t : ctype) (v : Z) : bool :=
  (min_value t <=? v) && (v <=? max_value t).

(** Integral conversion to [t] (what an implicit conversion or a
    [static_cast] computes): the value modulo [2 ^ bits t], read back in
    the range of [t]. *)
Definition cast (t : ctype) (v : Z) : Z :=
  let u := v mod 2 ^ bits t in
  if is_signed t && (2 ^ (bits t - 1) <=? u) then u - 2 ^ bits t else u.

(** ** Union storage *)

(** The object representation of one union. *)
Definition storage : Type := list byte.

(** [u.m = v] for a member [m] of type [t]: the first [sizeof t] bytes
    receive the little-endian representation of [v]; the remaining
    bytes of the union are not assigned and stay the indeterminate
    bytes [u] stands for. *)
Definition store (t : ctype) (v : Z) (u : storage) : storage :=
  le_split (sizeof t) v ++ skipn (sizeof t) u.

(** Reading [u.m] for a member [m] of type [t]. *)
Definition load (t : ctype) (u : storage) : Z :=
  cast t (le_combine (firstn (sizeof t) u)).

(** ** std::vector<iovec>, as far as the class looks at it *)

Module vector.

(** [data()] and [size()] of the vector. *)
Record t : Set := mk { data : Z; size : Z }.

Definition well_formed (v : t) : bool :=
  fits c_ptr (data v) && fits c_size_t (size v).

End vector.

(** ** The class *)

Module io_request.

Inductive operation : Set :=
| read | readv | write | writev | fdatasync
| recv | recvmsg | send | sendmsg
| accept | connect | poll_add | poll_remove | cancel.

(** The private data members.
    [_attr] is [union { uint64_t pos; int flags; int events; }],
    [_ptr] is [union { char* addr; iovec* iovec; msghdr* msghdr; sockaddr* sockaddr; }],
    [_size] is [union { size_t len; socklen_t* socklen_ptr; socklen_t socklen; }]. *)
Record io_request : Type := mk {
  _op   : operation;
  _fd   : Z;
  _attr : storage;
  _ptr  : storage;
  _size : storage
}.

(** Types of the union members. *)
Definition attr_pos         := c_uint64.
Definition attr_flags       := c_int.
Definition attr_events      := c_int.
Definition ptr_addr         := c_ptr.
Definition ptr_iovec        := c_ptr.
Definition ptr_msghdr       := c_ptr.
Definition ptr_sockaddr     := c_ptr.
Definition size_len         := c_size_t.
Definition size_socklen_ptr := c_ptr.
Definition size_socklen     := c_socklen_t.

(** *** Constructors

    No data member has a default initialiser, so the bytes of a union
    that a constructor does not assign are indeterminate.  Every
    constructor receives as [this] the bytes the object happens to hold,
    which may be any bytes at all, and returns the constructed object. *)

(** The mem-initialiser list [: _op(op), _fd(fd)] shared by all of them. *)
Definition init (this : io_request) (op : operation) (fd : Z) : io_request :=
  mk op fd (_attr this) (_ptr this) (_size this).

Definition set_attr (t : ctype) (v : Z) (r : io_request) : io_request :=
  mk (_op r) (_fd r) (store t v (_attr r)) (_ptr r) (_size r).

Definition set_ptr (t : ctype) (v : Z) (r : io_request) : io_request :=
  mk (_op r) (_fd r) (_attr r) (store t v (_ptr r)) (_size r).

Definition set_size (t : ctype) (v : Z) (r : io_request) : io_request :=
  mk (_op r) (_fd r) (_attr r) (_ptr r) (store t v (_size r)).

(** [io_request(operation op, int fd, int flags, ::msghdr* msg)] *)
Definition ctor_flags_msghdr this op fd flags msg : io_request :=
  set_ptr ptr_msghdr msg (set_attr attr_flags flags (init this op fd)).

(** [io_request(operation op, int fd, sockaddr* sa, socklen_t sl)] *)
Definition ctor_sockaddr_socklen this op fd sa sl : io_request :=
  set_size size_socklen sl (set_ptr ptr_sockaddr sa (init this op fd)).

(** [io_request(operation op, int fd, int flags, sockaddr* sa, socklen_t* sl)] *)
Definition ctor_flags_sockaddr_socklen_ptr this op fd flags sa sl : io_request :=
  set_size size_socklen_ptr sl
    (set_ptr ptr_sockaddr sa (set_attr attr_flags flags (init this op fd))).

(** [io_request(operation op, int fd, uint64_t pos, char* ptr, size_t size)] *)
Definition ctor_pos_addr_len this op fd pos ptr size : io_request :=
  set_size size_len size
    (set_ptr ptr_addr ptr (set_attr attr_pos pos (init this op fd))).

(** [io_request(operation op, int fd, uint64_t pos, iovec* ptr, size_t size)] *)
Definition ctor_pos_iovec_len this op fd pos ptr size : io_request :=
  set_size size_len size
    (set_ptr ptr_iovec ptr (set_attr attr_pos pos (init this op fd))).

(** [io_request(operation op, int fd)] *)
Definition ctor_plain this op fd : io_request :=
  init this op fd.

(** [io_request(operation op, int fd, int events)] *)
Definition ctor_events this op fd events : io_request :=
  set_attr attr_events events (init this op fd).

(** [io_request(operation op, int fd, char *ptr)] *)
Definition ctor_addr this op fd ptr : io_request :=
  set_ptr ptr_addr ptr (init this op fd).

(** *** Classification *)

Definition is_read (r : io_request) : bool :=
  match _op r with
  | read | readv | recvmsg | recv => true
  | _ => false
  end.

Definition is_write (r : io_request) : bool :=
  match _op r with
  | write | writev | send | sendmsg => true
  | _ => false
  end.

(** *** Accessors *)

Definition opcode (r : io_request) : operation := _op r.
Definition fd (r : io_request) : Z := _fd r.
Definition pos (r : io_request) : Z := load attr_pos (_attr r).
Definition flags (r : io_request) : Z := load attr_flags (_attr r).
Definition events (r : io_request) : Z := load attr_events (_attr r).
Definition address (r : io_request) : Z := load ptr_addr (_ptr r).
Definition iov (r : io_request) : Z := load ptr_iovec (_ptr r).
Definition posix_sockaddr (r : io_request) : Z := load ptr_sockaddr (_ptr r).
Definition msghdr (r : io_request) : Z := load ptr_msghdr (_ptr r).
Definition size (r : io_request) : Z := load size_len (_size r).
Definition iov_len (r : io_request) : Z := load size_len (_size r).
Definition socklen (r : io_request) : Z := load size_socklen (_size r).
Definition socklen_ptr (r : io_request) : Z := load size_socklen_ptr (_size r).

(** *** Factories

    Each takes the indeterminate bytes of the object it returns.
    [reinterpret_cast] and [const_cast] between object pointer types
    keep the address.  [make_recv] and [make_send] pass an [int] where
    the only viable constructor, the one for a buffer and a length,
    takes a [uint64_t]: the flags are converted on the way in. *)

Definition make_read this fd pos address size :=
  ctor_pos_addr_len this read fd pos address size.

Definition make_readv this fd pos (iov : vector.t) :=
  ctor_pos_iovec_len this readv fd pos (vector.data iov) (vector.size iov).

Definition make_recv this fd address size flags :=
  ctor_pos_addr_len this recv fd (cast c_uint64 flags) address size.

Definition make_recvmsg this fd msg flags :=
  ctor_flags_msghdr this recvmsg fd flags msg.

Definition make_send this fd address size flags :=
  ctor_pos_addr_len this send fd (cast c_uint64 flags) address size.

Definition make_sendmsg this fd msg flags :=
  ctor_flags_msghdr this sendmsg fd flags msg.

Definition make_write this fd pos address size :=
  ctor_pos_addr_len this write fd pos address size.

Definition make_writev this fd pos (iov : vector.t) :=
  ctor_pos_iovec_len this writev fd pos (vector.data iov) (vector.size iov).

Definition make_fdatasync this fd :=
  ctor_plain this fdatasync fd.

Definition make_accept this fd addr addrlen flags :=
  ctor_flags_sockaddr_socklen_ptr this accept fd flags addr addrlen.

Definition make_connect this fd addr addrlen :=
  ctor_sockaddr_socklen this connect fd addr addrlen.

Definition make_poll_add this fd events :=
  ctor_events this poll_add fd events.

Definition make_poll_remove this fd addr :=
  ctor_addr this poll_remove fd addr.

Definition make_cancel this fd addr :=
  ctor_addr this cancel fd addr.

(** Indeterminate bytes spelling the given 64-bit patterns in the three
    unions; used to run the definitions on concrete objects. *)
Definition storage_of (attr ptr size : Z) : io_request :=
  mk read 0 (le_split 8 attr) (le_split 8 ptr) (le_split 8 size).

(** Each union occupies its eight bytes. *)
Definition well_sized (r : io_request) : Prop :=
  length (_attr r) = 8%nat /\ length (_ptr r) = 8%nat /\ length (_size r) = 8%nat.

(** Two choices of indeterminate bytes: every bit set, and every bit
    clear. *)
Definition all_ones : io_request := storage_of (-1) (-1) (-1).
Definition zeroed : io_request := storage_of 0 0 0.

End io_request.

Import io_request.

Example ex_write_pos : pos (make_write all_ones 7 4096 65536 512) = 4096.
Proof. vm_compute. reflexivity. Qed.

Example ex_recv_flags_negative :
  let r := make_recv zeroed 7 65536 512 (-2) in
  flags r = -2 /\ pos r = 2 ^ 64 - 2.
Proof. vm_compute. split; reflexivity. Qed.

(** ** Loads and stores on union storage *)

(** Replace [bits t], for a known [t], by its value. *)
Ltac norm_bits :=
  repeat match goal with
  | |- context [bits ?t] =>
      let n := eval vm_compute in (bits t) in change (bits t) with n
  | H : context [bits ?t] |- _ =>
      let n := eval vm_compute in (bits t) in change (bits t) with n in H
  end.

Section LoadStore.

Lemma fits_spec t v : fits t v = true <-> min_value t <= v <= max_value t.
Proof.
  unfold fits. rewrite andb_true_iff, !Z.leb_le. tauto.
Qed.

Lemma bits_eq t : 2 ^ (Z.of_nat (sizeof t) * 8) = 2 ^ bits t.
Proof. unfold bits. f_equal. lia. Qed.

Lemma cast_mod t v : cast t (v mod 2 ^ bits t) = cast t v.
Proof.
  unfold cast. rewrite Z.mod_mod; [reflexivity|].
  destruct t; vm_compute; discriminate.
Qed.

(** A value of type [t] converts to itself. *)
Lemma cast_fits t v : fits t v = true -> cast t v = v.
Proof.
  rewrite fits_spec. unfold cast, min_value, max_value.
  destruct t; cbn -[Z.pow Z.modulo Z.leb bits]; intros H; norm_bits;
    cbn -[Z.pow Z.modulo Z.leb] in *;
    try (rewrite Z.mod_small by lia; reflexivity).
  destruct (Z.leb_spec (2 ^ 31) (v mod 2 ^ 32));
    Z.div_mod_to_equations; lia.
Qed.

Lemma firstn_store t v u :
  firstn (sizeof t) (store t v u) = le_split (sizeof t) v.
Proof.
  unfold store.
  rewrite firstn_app, length_le_split, Nat.sub_diag, firstn_O, app_nil_r.
  apply firstn_all2. rewrite length_le_split. apply Nat.le_refl.
Qed.

(** Reading a member after writing it yields the written value,
    converted to the member's type. *)
Lemma load_store_cast t v u : load t (store t v u) = cast t v.
Proof.
  unfold load. rewrite firstn_store, le_combine_split, bits_eq.
  apply cast_mod.
Qed.

Lemma load_store t v u : fits t v = true -> load t (store t v u) = v.
Proof. intros H. rewrite load_store_cast. now apply cast_fits. Qed.

(** Reading a 4-byte member after an 8-byte member was written sees the
    low-order half of what was written. *)
Lemma firstn_store_narrow t t' v u :
  sizeof t = 4%nat -> sizeof t' = 8%nat ->
  firstn (sizeof t) (store t' v u) = le_split (sizeof t) v.
Proof.
  intros Ht Ht'. unfold store. rewrite Ht, Ht'.
  rewrite firstn_app, length_le_split. cbn [Nat.sub firstn].
  rewrite app_nil_r. reflexivity.
Qed.

Lemma load_store_narrow t t' v u :
  sizeof t = 4%nat -> sizeof t' = 8%nat ->
  load t (store t' v u) = cast t v.
Proof.
  intros Ht Ht'. unfold load.
  rewrite (firstn_store_narrow t t' v u Ht Ht'), le_combine_split, bits_eq.
  apply cast_mod.
Qed.

(** Converting to [uint64_t] and then to a narrower type is converting
    to the narrower type. *)
Lemma cast_cast_uint64 t v : cast t (cast c_uint64 v) = cast t v.
Proof.
  rewrite <- (cast_mod t (cast c_uint64 v)), <- (cast_mod t v).
  f_equal. unfold cast. cbn [is_signed andb].
  destruct t; norm_bits; Z.div_mod_to_equations; lia.
Qed.

(** A store touches only its own bytes. *)
Lemma skipn_store t v u : skipn (sizeof t) (store t v u) = skipn (sizeof t) u.
Proof.
  unfold store.
  rewrite skipn_app, length_le_split, Nat.sub_diag, skipn_O.
  rewrite skipn_all2 by (rewrite length_le_split; apply Nat.le_refl).
  reflexivity.
Qed.

Lemma length_store t v u :
  length u = 8%nat -> length (store t v u) = 8%nat.
Proof.
  intros H. unfold store.
  rewrite length_app, length_le_split, length_skipn, H.
  destruct t; reflexivity.
Qed.

End LoadStore.

(** ** Running the constructors *)

Create Rewrite HintDb io_request.

#[local] Hint Rewrite load_store_cast : io_request.
#[local] Hint Rewrite cast_cast_uint64 : io_request.
#[local] Hint Rewrite load_store_narrow using reflexivity : io_request.
#[local] Hint Rewrite cast_fits using assumption : io_request.

(** Unfold a factory call down to loads and stores on the unions. *)
Ltac run_factory :=
  cbv beta zeta delta
    [make_read make_readv make_recv make_recvmsg make_send make_sendmsg
     make_write make_writev make_fdatasync make_accept make_connect
     make_poll_add make_poll_remove make_cancel
     ctor_flags_msghdr ctor_sockaddr_socklen ctor_flags_sockaddr_socklen_ptr
     ctor_pos_addr_len ctor_pos_iovec_len ctor_plain ctor_events ctor_addr
     set_attr set_ptr set_size init
     opcode fd pos flags events address iov posix_sockaddr msghdr
     size iov_len socklen socklen_ptr is_read is_write];
  cbn [_op _fd _attr _ptr _size];
  cbv delta
    [attr_pos attr_flags attr_events ptr_addr ptr_iovec ptr_msghdr
     ptr_sockaddr size_len size_socklen_ptr size_socklen].

(** Settle accessor-after-factory goals whose inputs fit their types. *)
Ltac round_trip :=
  run_factory; autorewrite with io_request; try reflexivity.

Lemma well_formed_vector v :
  vector.well_formed v = true ->
  fits c_ptr (vector.data v) = true /\ fits c_size_t (vector.size v) = true.
Proof. unfold vector.well_formed. apply andb_true_iff. Qed.

Section Factories.

Variable this : io_request.
Variables d p a n fl : Z.

Lemma opcode_fd_plain op :
  opcode (ctor_plain this op d) = op /\ fd (ctor_plain this op d) = d.
Proof. split; reflexivity. Qed.

(** The buffer constructor returns position, address and length. *)
Lemma pos_addr_len_round_trip op :
  fits c_uint64 p = true -> fits c_ptr a = true -> fits c_size_t n = true ->
  let r := ctor_pos_addr_len this op d p a n in
  opcode r = op /\ fd r = d /\ pos r = p /\ address r = a /\ size r = n.
Proof. intros Hp Ha Hn. repeat split; round_trip. Qed.

(** The vector constructor returns position, array and element count. *)
Lemma pos_iovec_len_round_trip op :
  fits c_uint64 p = true -> fits c_ptr a = true -> fits c_size_t n = true ->
  let r := ctor_pos_iovec_len this op d p a n in
  opcode r = op /\ fd r = d /\ pos r = p /\ iov r = a /\ iov_len r = n.
Proof. intros Hp Ha Hn. repeat split; round_trip. Qed.

(** The message constructor returns flags and message header. *)
Lemma flags_msghdr_round_trip op :
  fits c_int fl = true -> fits c_ptr a = true ->
  let r := ctor_flags_msghdr this op d fl a in
  opcode r = op /\ fd r = d /\ flags r = fl /\ msghdr r = a.
Proof. intros Hf Ha. repeat split; round_trip. Qed.

(** Flags that went in through [pos] come back out of [flags]. *)
Lemma flags_through_pos_round_trip op :
  fits c_int fl = true -> fits c_ptr a = true -> fits c_size_t n = true ->
  let r := ctor_pos_addr_len this op d (cast c_uint64 fl) a n in
  opcode r = op /\ fd r = d /\ flags r = fl /\ address r = a /\ size r = n.
Proof. intros Hf Ha Hn. repeat split; round_trip. Qed.

Lemma pos_of_flags op :
  let r := ctor_pos_addr_len this op d (cast c_uint64 fl) a n in
  pos r = fl mod 2 ^ 64.
Proof.
  run_factory. rewrite load_store_cast.
  unfold cast. cbn [is_signed andb]. norm_bits. apply Z.mod_mod. lia.
Qed.

End Factories.

(** ** Classification predicates *)

(** C1: for every request, [is_read] holds exactly when the operation is
    one of read, readv, recv, recvmsg, and [is_write] holds exactly when
    it is one of write, writev, send, sendmsg. *)
Theorem is_read_is_write_spec (r : io_request) :
  (is_read r = true <-> In (opcode r) [read; readv; recv; recvmsg]) /\
  (is_write r = true <-> In (opcode r) [write; writev; send; sendmsg]).
Proof.
  unfold is_read, is_write, opcode.
  destruct (_op r); cbn [In]; split; split; intros H;
    solve [ reflexivity | discriminate
          | repeat (first [left; reflexivity | right])
          | repeat (destruct H as [H | H]; try discriminate H); contradiction ].
Qed.

(** C5: [is_read] and [is_write] never hold together, and both fail
    exactly for fdatasync, accept, connect, poll_add, poll_remove and
    cancel. *)
Theorem is_read_is_write_exclusive (r : io_request) :
  is_read r && is_write r = false /\
  (is_read r = false /\ is_write r = false <->
   In (opcode r) [fdatasync; accept; connect; poll_add; poll_remove; cancel]).
Proof.
  unfold is_read, is_write, opcode.
  destruct (_op r); cbn [In andb]; split; try reflexivity; split; intros H;
    solve [ split; reflexivity
          | destruct H; discriminate
          | repeat (first [left; reflexivity | right])
          | repeat (destruct H as [H | H]; try discriminate H); contradiction ].
Qed.

(** ** Round trips through the factories *)

(** C2: whatever a factory is given comes back unchanged from the
    matching accessor: descriptor, position, flags, event mask, byte
    length or element count, socket length, and every pointer. *)
Theorem factory_accessor_round_trip
    (this : io_request) (d p a n fl ev msg sa slp sl tok : Z) (v : vector.t) :
  fits c_int d = true -> fits c_uint64 p = true -> fits c_ptr a = true ->
  fits c_size_t n = true -> fits c_int fl = true -> fits c_int ev = true ->
  fits c_ptr msg = true -> fits c_ptr sa = true -> fits c_ptr slp = true ->
  fits c_socklen_t sl = true -> fits c_ptr tok = true ->
  vector.well_formed v = true ->
  (let r := make_read this d p a n in
   fd r = d /\ pos r = p /\ address r = a /\ size r = n) /\
  (let r := make_readv this d p v in
   fd r = d /\ pos r = p /\ iov r = vector.data v /\ iov_len r = vector.size v) /\
  (let r := make_write this d p a n in
   fd r = d /\ pos r = p /\ address r = a /\ size r = n) /\
  (let r := make_writev this d p v in
   fd r = d /\ pos r = p /\ iov r = vector.data v /\ iov_len r = vector.size v) /\
  (let r := make_recv this d a n fl in
   fd r = d /\ address r = a /\ size r = n /\ flags r = fl) /\
  (let r := make_recvmsg this d msg fl in
   fd r = d /\ msghdr r = msg /\ flags r = fl) /\
  (let r := make_send this d a n fl in
   fd r = d /\ address r = a /\ size r = n /\ flags r = fl) /\
  (let r := make_sendmsg this d msg fl in
   fd r = d /\ msghdr r = msg /\ flags r = fl) /\
  (let r := make_accept this d sa slp fl in
   fd r = d /\ posix_sockaddr r = sa /\ socklen_ptr r = slp /\ flags r = fl) /\
  (let r := make_connect this d sa sl in
   fd r = d /\ posix_sockaddr r = sa /\ socklen r = sl) /\
  (let r := make_poll_add this d ev in fd r = d /\ events r = ev) /\
  (let r := make_poll_remove this d tok in fd r = d /\ address r = tok) /\
  (let r := make_cancel this d tok in fd r = d /\ address r = tok) /\
  fd (make_fdatasync this d) = d.
Proof.
  intros Hd Hp Ha Hn Hfl Hev Hmsg Hsa Hslp Hsl Htok Hv.
  destruct (well_formed_vector v Hv) as [Hvd Hvs].
  repeat match goal with |- _ /\ _ => split end; round_trip; repeat split.
Qed.

Lemma factory_accessor_round_trip_witness :
  pos (make_read all_ones 7 (2 ^ 64 - 1) 4096 512) = 2 ^ 64 - 1 /\
  flags (make_recv all_ones 7 4096 512 (- 2 ^ 31)) = - 2 ^ 31 /\
  iov_len (make_writev all_ones 7 (2 ^ 64 - 1) (vector.mk 8192 3)) = 3 /\
  socklen (make_connect all_ones 7 4096 16) = 16.
Proof.
  pose proof (factory_accessor_round_trip all_ones 7 (2 ^ 64 - 1) 4096 512
                (- 2 ^ 31) 1 4096 4096 4096 16 4096 (vector.mk 8192 3)
                eq_refl eq_refl eq_refl eq_refl eq_refl eq_refl
                eq_refl eq_refl eq_refl eq_refl eq_refl eq_refl) as H.
  cbv zeta in H.
  destruct H as (Hread & _ & _ & Hwritev & Hrecv & _ & _ & _ & _ & Hconnect & _).
  split; [apply Hread | split; [apply Hrecv | split; [apply Hwritev | apply Hconnect]]].
Defined.

(** ** Address length: pointer for accept, value for connect *)

(** C3: [make_accept] keeps the pointer to the length cell, all eight
    bytes of it, and [socklen_ptr] returns that pointer; [make_connect]
    keeps the length itself, in the four bytes of [socklen], and
    [socklen] returns that value. *)
Theorem accept_pointer_connect_value
    (this : io_request) (d sa slp sl fl : Z) :
  fits c_ptr slp = true -> fits c_socklen_t sl = true ->
  (let r := make_accept this d sa slp fl in
   opcode r = accept /\ socklen_ptr r = slp /\
   firstn 8 (_size r) = le_split 8 slp) /\
  (let r := make_connect this d sa sl in
   opcode r = connect /\ socklen r = sl /\
   firstn 4 (_size r) = le_split 4 sl).
Proof.
  intros Hslp Hsl. split; cbv zeta; repeat split; round_trip.
Qed.

Lemma accept_pointer_connect_value_witness :
  socklen_ptr (make_accept all_ones 5 4096 8192 0) = 8192 /\
  socklen (make_connect all_ones 5 4096 16) = 16.
Proof.
  pose proof (accept_pointer_connect_value all_ones 5 4096 8192 16 0
                eq_refl eq_refl) as H.
  cbv zeta in H. destruct H as ((_ & Hacc & _) & (_ & Hcon & _)).
  split; [exact Hacc | exact Hcon].
Defined.

(** ** Tokens travel in the buffer-pointer slot *)

(** C4: [make_poll_remove] and [make_cancel] put the token where a
    buffer pointer goes (the [_ptr] union then holds what it holds after a
    [make_read] of a buffer at that address), and [address] returns
    it. *)
Theorem token_in_buffer_slot (this : io_request) (d tok : Z) :
  fits c_ptr tok = true ->
  (let r := make_poll_remove this d tok in
   opcode r = poll_remove /\ address r = tok /\
   forall d' p n, _ptr r = _ptr (make_read this d' p tok n)) /\
  (let r := make_cancel this d tok in
   opcode r = cancel /\ address r = tok /\
   forall d' p n, _ptr r = _ptr (make_read this d' p tok n)).
Proof.
  intros Htok. split; cbv zeta; repeat split; round_trip.
Qed.

Lemma token_in_buffer_slot_witness :
  address (make_poll_remove all_ones 3 140737488355327) = 140737488355327 /\
  address (make_cancel all_ones 3 140737488355327) = 140737488355327.
Proof.
  pose proof (token_in_buffer_slot all_ones 3 140737488355327 eq_refl) as H.
  cbv zeta in H. destruct H as ((_ & Hrem & _) & (_ & Hcan & _)).
  split; [exact Hrem | exact Hcan].
Defined.

(** ** A write request, end to end *)

(** C6: [make_write(7, 4096, buf, 512)] has opcode write, descriptor 7,
    position 4096, address [buf], size 512, is a write and is not a
    read. *)
Theorem make_write_scenario (this : io_request) (buf : Z) :
  fits c_ptr buf = true ->
  let r := make_write this 7 4096 buf 512 in
  opcode r = write /\ fd r = 7 /\ pos r = 4096 /\ address r = buf /\
  size r = 512 /\ is_write r = true /\ is_read r = false.
Proof.
  intros Hbuf r. subst r.
  destruct (pos_addr_len_round_trip this 7 4096 buf 512 write
              eq_refl Hbuf eq_refl) as (Hop & Hfd & Hpos & Haddr & Hsize).
  repeat split; assumption || reflexivity.
Qed.

Lemma make_write_scenario_witness :
  opcode (make_write all_ones 7 4096 65536 512) = write /\
  fd (make_write all_ones 7 4096 65536 512) = 7 /\
  pos (make_write all_ones 7 4096 65536 512) = 4096 /\
  address (make_write all_ones 7 4096 65536 512) = 65536 /\
  size (make_write all_ones 7 4096 65536 512) = 512 /\
  is_write (make_write all_ones 7 4096 65536 512) = true /\
  is_read (make_write all_ones 7 4096 65536 512) = false.
Proof.
  exact (make_write_scenario all_ones 65536 eq_refl).
Defined.

(** ** Operations without an attribute *)

(** An 8-byte member read from eight bytes that spell [v]. *)
Lemma load_le_split t v :
  sizeof t = 8%nat -> load t (le_split 8 v) = cast t v.
Proof.
  intros Ht. unfold load. rewrite Ht.
  rewrite firstn_all2 by (rewrite length_le_split; apply Nat.le_refl).
  rewrite le_combine_split. rewrite <- Ht, bits_eq. apply cast_mod.
Qed.

(** The [int] member read from eight bytes that spell [v]. *)
Lemma load_int_le_split v : load c_int (le_split 8 v) = cast c_int v.
Proof.
  unfold load. cbn [sizeof].
  change (firstn 4 (le_split 8 v)) with (le_split 4 v).
  rewrite le_combine_split. apply (cast_mod c_int).
Qed.

(** C7, as the code has it: the constructors behind [make_fdatasync],
    [make_connect], [make_poll_remove] and [make_cancel] never assign
    [_attr], so the attribute is indeterminate rather than zero: whatever
    64-bit value is named, the four factories can return a request on
    which [pos] is that value (and [flags] and [events] its low half). *)
Theorem unused_attribute_unconstrained (d sa sl tok v : Z) :
  fits c_uint64 v = true ->
  exists this : io_request,
    well_sized this /\
    (pos (make_fdatasync this d), flags (make_fdatasync this d),
     events (make_fdatasync this d)) = (v, cast c_int v, cast c_int v) /\
    (pos (make_connect this d sa sl), flags (make_connect this d sa sl),
     events (make_connect this d sa sl)) = (v, cast c_int v, cast c_int v) /\
    (pos (make_poll_remove this d tok), flags (make_poll_remove this d tok),
     events (make_poll_remove this d tok)) = (v, cast c_int v, cast c_int v) /\
    (pos (make_cancel this d tok), flags (make_cancel this d tok),
     events (make_cancel this d tok)) = (v, cast c_int v, cast c_int v).
Proof.
  intros Hv. exists (storage_of v 0 0).
  split; [repeat split; apply length_le_split |].
  assert (Hpos : load c_uint64 (le_split 8 v) = v).
  { rewrite load_le_split by reflexivity. apply cast_fits, Hv. }
  pose proof (load_int_le_split v) as Hint.
  repeat match goal with |- _ /\ _ => split end;
    run_factory; unfold storage_of; cbn [_attr];
    rewrite Hpos, Hint; reflexivity.
Qed.

Lemma unused_attribute_unconstrained_witness :
  exists this : io_request,
    well_sized this /\
    (pos (make_fdatasync this 3), flags (make_fdatasync this 3),
     events (make_fdatasync this 3)) = (2 ^ 63, 0, 0) /\
    (pos (make_connect this 3 4096 16), flags (make_connect this 3 4096 16),
     events (make_connect this 3 4096 16)) = (2 ^ 63, 0, 0) /\
    (pos (make_poll_remove this 3 8192), flags (make_poll_remove this 3 8192),
     events (make_poll_remove this 3 8192)) = (2 ^ 63, 0, 0) /\
    (pos (make_cancel this 3 8192), flags (make_cancel this 3 8192),
     events (make_cancel this 3 8192)) = (2 ^ 63, 0, 0).
Proof.
  exact (unused_attribute_unconstrained 3 4096 16 8192 (2 ^ 63) eq_refl).
Defined.

(** C7 as stated fails: when the indeterminate bytes have every bit
    set, the four requests report a non-zero attribute. *)
Lemma unused_attribute_not_zero :
  pos (make_fdatasync all_ones 3) <> 0 /\
  flags (make_fdatasync all_ones 3) <> 0 /\
  events (make_fdatasync all_ones 3) <> 0 /\
  pos (make_connect all_ones 3 4096 16) <> 0 /\
  pos (make_poll_remove all_ones 3 4096) <> 0 /\
  pos (make_cancel all_ones 3 4096) <> 0.
Proof. vm_compute. repeat split; discriminate. Qed.

(** ** Flags of recv and send go through the position member *)

(** C8: [make_recv] and [make_send] hand their flags to the [uint64_t]
    position parameter.  The union receives all eight bytes of the
    converted value, [pos] returns the flags modulo 2^64 (sign-extended)
    and [flags] reads the original flags back from the low four bytes. *)
Theorem recv_send_flags_through_pos (this : io_request) (d a n fl : Z) :
  fits c_int fl = true ->
  (let r := make_recv this d a n fl in
   _attr r = _attr (make_read this d (fl mod 2 ^ 64) a n) /\
   pos r = fl mod 2 ^ 64 /\
   pos r = (if fl <? 0 then fl + 2 ^ 64 else fl) /\
   flags r = fl) /\
  (let r := make_send this d a n fl in
   _attr r = _attr (make_write this d (fl mod 2 ^ 64) a n) /\
   pos r = fl mod 2 ^ 64 /\
   pos r = (if fl <? 0 then fl + 2 ^ 64 else fl) /\
   flags r = fl).
Proof.
  intros Hfl.
  assert (Hmod : fl mod 2 ^ 64 = if fl <? 0 then fl + 2 ^ 64 else fl).
  { apply fits_spec in Hfl. unfold min_value, max_value in Hfl.
    cbn [is_signed] in Hfl. norm_bits. change (32 - 1) with 31 in Hfl.
    destruct (Z.ltb_spec fl 0); Z.div_mod_to_equations; lia. }
  split; cbv zeta.
  - pose proof (pos_of_flags this d a n fl recv) as Hpos. cbv zeta in Hpos.
    unfold make_recv. rewrite <- Hmod, Hpos.
    repeat split; round_trip.
  - pose proof (pos_of_flags this d a n fl send) as Hpos. cbv zeta in Hpos.
    unfold make_send. rewrite <- Hmod, Hpos.
    repeat split; round_trip.
Qed.

Lemma recv_send_flags_through_pos_witness :
  pos (make_recv zeroed 7 65536 512 (-1)) = 2 ^ 64 - 1 /\
  flags (make_recv zeroed 7 65536 512 (-1)) = -1 /\
  pos (make_send zeroed 7 65536 512 (-1)) = 2 ^ 64 - 1 /\
  flags (make_send zeroed 7 65536 512 (-1)) = -1.
Proof.
  pose proof (recv_send_flags_through_pos zeroed 7 65536 512 (-1) eq_refl) as H.
  cbv zeta in H.
  destruct H as ((_ & Hrp & _ & Hrf) & (_ & Hsp & _ & Hsf)).
  split; [exact Hrp | split; [exact Hrf | split; [exact Hsp | exact Hsf]]].
Defined.

(** ** Accessors that share storage *)

(** C9: [address], [iov], [msghdr] and [posix_sockaddr] read the same
    pointer out of the same union; after [make_recvmsg(fd, msg, flags)]
    all of them, [address] included, return [msg]. *)
Theorem pointer_accessors_same_slot
    (r this : io_request) (d msg fl : Z) :
  fits c_ptr msg = true ->
  (address r = iov r /\ address r = msghdr r /\
   address r = posix_sockaddr r) /\
  address (make_recvmsg this d msg fl) = msg.
Proof.
  intros Hmsg. split.
  - repeat split; reflexivity.
  - round_trip.
Qed.

Lemma pointer_accessors_same_slot_witness :
  address (make_recvmsg all_ones 4 8192 64) = 8192.
Proof.
  exact (proj2 (pointer_accessors_same_slot zeroed all_ones 4 8192 64 eq_refl)).
Defined.

(** C10: [size] and [iov_len] return the same value for every
    request. *)
Theorem size_iov_len_same (r : io_request) : size r = iov_len r.
Proof. unfold size, iov_len. reflexivity. Qed.

(** ** Members that overlap *)

Section Overlap.

(** A 4-byte member is the low half of the 8-byte member it overlaps,
    converted to the narrow type. *)
Lemma load_narrow_of_wide t t' (u : storage) :
  sizeof t = 4%nat -> sizeof t' = 8%nat -> is_signed t' = false ->
  load t u = cast t (load t' u).
Proof.
  intros Ht Ht' Hu. unfold load. rewrite Ht, Ht'.
  replace (firstn 4 u) with (firstn 4 (firstn 8 u))
    by (rewrite firstn_firstn; reflexivity).
  set (x := le_combine (firstn 8 u)).
  rewrite le_combine_firstn. change (2 ^ (8 * Z.of_nat 4)) with (2 ^ 32).
  assert (Hbits : bits t = 32) by (unfold bits; rewrite Ht; reflexivity).
  rewrite <- Hbits, cast_mod.
  assert (Hwide : cast t' x = cast c_uint64 x).
  { unfold cast, bits. rewrite Hu, Ht'. reflexivity. }
  rewrite Hwide, cast_cast_uint64. reflexivity.
Qed.


End Overlap.

(** Writing an 8-byte member into a full union replaces all of it. *)
Lemma store_full t v (u : storage) :
  sizeof t = 8%nat -> length u = 8%nat -> store t v u = le_split 8 v.
Proof.
  intros Ht Hu. unfold store. rewrite Ht.
  rewrite skipn_all2 by (rewrite Hu; apply Nat.le_refl).
  apply app_nil_r.
Qed.

(** ** What each factory builds *)

(** X1: every factory tags the request with its own operation, and the
    two predicates sort the fourteen factories into four readers, four
    writers and six that are neither. *)
Theorem factory_tag_and_class
    (this : io_request) (d p a n fl ev msg sa slp sl tok : Z) (v : vector.t) :
  let tag_class r := (opcode r, is_read r, is_write r) in
  tag_class (make_read this d p a n) = (read, true, false) /\
  tag_class (make_readv this d p v) = (readv, true, false) /\
  tag_class (make_recv this d a n fl) = (recv, true, false) /\
  tag_class (make_recvmsg this d msg fl) = (recvmsg, true, false) /\
  tag_class (make_write this d p a n) = (write, false, true) /\
  tag_class (make_writev this d p v) = (writev, false, true) /\
  tag_class (make_send this d a n fl) = (send, false, true) /\
  tag_class (make_sendmsg this d msg fl) = (sendmsg, false, true) /\
  tag_class (make_fdatasync this d) = (fdatasync, false, false) /\
  tag_class (make_accept this d sa slp fl) = (accept, false, false) /\
  tag_class (make_connect this d sa sl) = (connect, false, false) /\
  tag_class (make_poll_add this d ev) = (poll_add, false, false) /\
  tag_class (make_poll_remove this d tok) = (poll_remove, false, false) /\
  tag_class (make_cancel this d tok) = (cancel, false, false).
Proof.
  cbv zeta. repeat match goal with |- _ /\ _ => split end; reflexivity.
Qed.

(** X2: on every request the narrow accessors see the low half of what
    the wide ones see: [flags] and [events] are [pos] converted to
    [int], [socklen] is [size] modulo 2^32, and [socklen_ptr] is the
    same 64-bit pattern as [size]. *)
Theorem overlapping_members (r : io_request) :
  flags r = cast c_int (pos r) /\
  events r = cast c_int (pos r) /\
  socklen r = size r mod 2 ^ 32 /\
  socklen_ptr r = size r.
Proof.
  unfold flags, events, pos, socklen, size, socklen_ptr.
  repeat split.
  - apply load_narrow_of_wide; reflexivity.
  - apply load_narrow_of_wide; reflexivity.
  - rewrite (load_narrow_of_wide size_socklen size_len) by reflexivity.
    reflexivity.
Qed.


(** X6: the six factories for buffers and vectors assign all eight
    bytes of all three unions, so the request they build does not depend
    on what the storage held. *)
Theorem buffer_factories_fully_initialise
    (this this' : io_request) (d p a n fl : Z) (v : vector.t) :
  well_sized this -> well_sized this' ->
  make_read this d p a n = make_read this' d p a n /\
  make_readv this d p v = make_readv this' d p v /\
  make_write this d p a n = make_write this' d p a n /\
  make_writev this d p v = make_writev this' d p v /\
  make_recv this d a n fl = make_recv this' d a n fl /\
  make_send this d a n fl = make_send this' d a n fl.
Proof.
  intros (Ha & Hp & Hs) (Ha' & Hp' & Hs').
  repeat match goal with |- _ /\ _ => split end;
    run_factory; rewrite !store_full by (assumption || reflexivity);
    reflexivity.
Qed.

Lemma buffer_factories_fully_initialise_witness :
  make_read all_ones 7 4096 65536 512 = make_read zeroed 7 4096 65536 512 /\
  make_recv all_ones 7 65536 512 (-1) = make_recv zeroed 7 65536 512 (-1).
Proof.
  pose proof (buffer_factories_fully_initialise all_ones zeroed
                7 4096 65536 512 (-1) (vector.mk 8192 3)
                (conj eq_refl (conj eq_refl eq_refl))
                (conj eq_refl (conj eq_refl eq_refl))) as H.
  destruct H as (Hread & _ & _ & _ & Hrecv & _).
  split; [exact Hread | exact Hrecv].
Defined.

(** A factory that leaves bytes unassigned does depend on them. *)
Example recvmsg_depends_on_storage :
  make_recvmsg all_ones 7 65536 1 <> make_recvmsg zeroed 7 65536 1.
Proof. vm_compute. discriminate. Qed.

(** X8: the detour of the flags through [uint64_t] loses nothing: two
    recv requests (or two send requests) that are equal were given the
    same descriptor and the same flags. *)
Theorem recv_send_flags_injective
    (this this' : io_request) (d d' a a' n n' fl fl' : Z) :
  fits c_int fl = true -> fits c_int fl' = true ->
  make_recv this d a n fl = make_recv this' d' a' n' fl' \/
  make_send this d a n fl = make_send this' d' a' n' fl' ->
  d = d' /\ fl = fl'.
Proof.
  intros Hfl Hfl' [Heq | Heq]; split;
    solve [ apply (f_equal fd) in Heq; exact Heq
          | apply (f_equal flags) in Heq; revert Heq; round_trip;
            intros Heq; exact Heq ].
Qed.

Lemma recv_send_flags_injective_witness :
  make_recv all_ones 7 65536 512 (-1) = make_recv zeroed 7 65536 512 (-1) /\
  (7 = 7 /\ -1 = -1).
Proof.
  split; [reflexivity |].
  exact (recv_send_flags_injective all_ones zeroed 7 7 65536 65536 512 512
           (-1) (-1) eq_refl eq_refl (or_introl eq_refl)).
Defined.
